(** * Orbital elements to render-frame geometry

    A shallow embedding of [src/utils/orbitalMath.ts], of the element
    state kept by [src/App.tsx], of the [Controls] component and of the
    scene's guides.

    Numbers.  The general statements are made over a model in which a
    JavaScript [number] is a real number: [+], [-], [*] and [/] are the field
    operations of [R], [Math.cos], [Math.sin], [Math.sqrt] and [Math.PI] are
    [cos], [sin], [sqrt] and [PI].  [R]'s division is total; the one divisor
    of the source that can vanish is exposed as [conicDivisor], so that
    statements can speak about it.  Doubles round, so an equation between
    computed values is stated up to a tolerance and on the ranges of the
    sliders; the module [IEEE] holds the same functions over binary64 and
    evaluates the code at chosen records, digit for digit. *)

From Stdlib Require Import Reals Lra Lia List Arith PeanoNat String RNsatz.
From Equations Require Import Equations.
From Stdlib Require Floats.
Import ListNotations.

Local Open Scope R_scope.

(** ** three.js vectors *)

Module THREE.

Record Vector3 : Type := mkVector3 { x : R; y : R; z : R }.

(** [Vector3.length]: [Math.sqrt(x*x + y*y + z*z)]. *)
Definition length (v : Vector3) : R :=
  sqrt (x v * x v + y v * y v + z v * z v).

(** [Vector3.multiplyScalar]. *)
Definition multiplyScalar (v : Vector3) (scalar : R) : Vector3 :=
  mkVector3 (x v * scalar) (y v * scalar) (z v * scalar).

(** [Vector3.divideScalar]: [multiplyScalar(1 / scalar)]. *)
Definition divideScalar (v : Vector3) (scalar : R) : Vector3 :=
  multiplyScalar v (1 / scalar).

(** The JavaScript expression [l || 1] on a number [l]: [1] when [l] is
    zero, [l] otherwise. *)
Definition orOne (l : R) : R :=
  if Req_dec_T l 0 then 1 else l.

(** [Vector3.normalize]: [divideScalar(length() || 1)]. *)
Definition normalize (v : Vector3) : Vector3 :=
  divideScalar v (orOne (length v)).

(** [Vector3.dot]. *)
Definition dot (u v : Vector3) : R :=
  x u * x v + y u * y v + z u * z v.

(** [Vector3.negate]. *)
Definition negate (v : Vector3) : Vector3 :=
  mkVector3 (- x v) (- y v) (- z v).

(** [Vector3.lengthSq]. *)
Definition lengthSq (v : Vector3) : R :=
  x v * x v + y v * y v + z v * z v.





(** [Vector3.crossVectors]. *)
Definition crossVectors (u v : Vector3) : Vector3 :=
  mkVector3 (y u * z v - z u * y v)
            (z u * x v - x u * z v)
            (x u * y v - y u * x v).



(** [MathUtils.clamp]: [Math.max(min, Math.min(max, value))]. *)
Definition clamp (value min max : R) : R :=
  Rmax min (Rmin max value).

(** [Vector3.angleTo]: [PI / 2] when a length is zero, otherwise the arc
    cosine of the clamped normalized dot product. *)
Definition angleTo (u v : Vector3) : R :=
  let denominator := sqrt (lengthSq u * lengthSq v) in
  if Req_dec_T denominator 0 then PI / 2
  else acos (clamp (dot u v / denominator) (-1) 1).

End THREE.

Import THREE.

(** ** [src/types.ts] *)

Record OrbitalElements : Type := mkElements {
  a : R;      (* semi-major axis *)
  e : R;      (* eccentricity *)
  i : R;      (* inclination, radians *)
  omega : R;  (* argument of perigee, radians *)
  raan : R;   (* right ascension of the ascending node, radians *)
  nu : R      (* true anomaly, radians *)
}.

Module ParameterKey.
Inductive t : Type := A | E | I | OMEGA | RAAN | NU.
End ParameterKey.

(** ** [src/utils/orbitalMath.ts] *)

Definition degToRad (deg : R) : R := deg * (PI / 180).
Definition radToDeg (rad : R) : R := rad * (180 / PI).

Definition perifocalToThree (x_orb y_orb z_orb : R) (elements : OrbitalElements)
  : Vector3 :=
  let cos_O := cos (raan elements) in
  let sin_O := sin (raan elements) in
  let cos_w := cos (omega elements) in
  let sin_w := sin (omega elements) in
  let cos_i := cos (i elements) in
  let sin_i := sin (i elements) in
  let xx := cos_O * cos_w - sin_O * sin_w * cos_i in
  let xy := - cos_O * sin_w - sin_O * cos_w * cos_i in
  let xz := sin_O * sin_i in
  let yx := sin_O * cos_w + cos_O * sin_w * cos_i in
  let yy := - sin_O * sin_w + cos_O * cos_w * cos_i in
  let yz := - cos_O * sin_i in
  let zx := sin_w * sin_i in
  let zy := cos_w * sin_i in
  let zz := cos_i in
  let X := xx * x_orb + xy * y_orb + xz * z_orb in
  let Y := yx * x_orb + yy * y_orb + yz * z_orb in
  let Z := zx * x_orb + zy * y_orb + zz * z_orb in
  mkVector3 X Z (- Y).

(** The anomaly used by [calculatePosition]: the optional argument when it
    is given, [elements.nu] otherwise. *)
Definition anomalyOf (elements : OrbitalElements) (anomaly : option R) : R :=
  match anomaly with
  | Some v => v
  | None => nu elements
  end.

(** The divisor of the conic equation, [1 + e * Math.cos(nu)]. *)
Definition conicDivisor (elements : OrbitalElements) (anomaly : option R) : R :=
  1 + e elements * cos (anomalyOf elements anomaly).

Definition calculatePosition (elements : OrbitalElements) (anomaly : option R)
  : Vector3 :=
  let nu := anomalyOf elements anomaly in
  let r := (a elements * (1 - e elements * e elements))
           / (1 + e elements * cos nu) in
  let x_orb := r * cos nu in
  let y_orb := r * sin nu in
  let z_orb := 0 in
  perifocalToThree x_orb y_orb z_orb elements.

(** The [for (let j = 0; j <= segments; j++)] loop of [generateOrbitPath],
    with the array [points] threaded through. *)
Equations? pathLoop (elements : OrbitalElements) (segments j : nat)
  (points : list Vector3) : list Vector3 by wf (S segments - j)%nat lt :=
  pathLoop elements segments j points with le_dec j segments => {
    | left Hle :=
        let nu := (INR j / INR segments) * 2 * PI in
        pathLoop elements segments (S j)
          (points ++ [calculatePosition elements (Some nu)]);
    | right _ := points }.
Proof. destruct j; lia. Qed.

Definition generateOrbitPath (elements : OrbitalElements) (segments : option nat)
  : list Vector3 :=
  let segments := match segments with Some n => n | None => 200%nat end in
  pathLoop elements segments 0 [].

Definition getNodeVector (elements : OrbitalElements) : Vector3 :=
  normalize (mkVector3 (cos (raan elements)) 0 (- sin (raan elements))).

Definition getPerigeeVector (elements : OrbitalElements) : Vector3 :=
  normalize (calculatePosition elements (Some 0)).

Definition getOrbitNormal (elements : OrbitalElements) : Vector3 :=
  normalize (perifocalToThree 0 0 1 elements).

(** ** [src/App.tsx]: the element state *)

Definition INITIAL_ELEMENTS : OrbitalElements :=
  {| a := 8;
     e := 0.4;
     i := 45 * (PI / 180);
     omega := 45 * (PI / 180);
     raan := 30 * (PI / 180);
     nu := 0 |}.

(** [handleUpdateElement]: [setElements(prev => ({...prev, [key]: value}))]. *)
Definition handleUpdateElement (key : ParameterKey.t) (value : R)
  (prev : OrbitalElements) : OrbitalElements :=
  match key with
  | ParameterKey.A => mkElements value (e prev) (i prev) (omega prev) (raan prev) (nu prev)
  | ParameterKey.E => mkElements (a prev) value (i prev) (omega prev) (raan prev) (nu prev)
  | ParameterKey.I => mkElements (a prev) (e prev) value (omega prev) (raan prev) (nu prev)
  | ParameterKey.OMEGA => mkElements (a prev) (e prev) (i prev) value (raan prev) (nu prev)
  | ParameterKey.RAAN => mkElements (a prev) (e prev) (i prev) (omega prev) value (nu prev)
  | ParameterKey.NU => mkElements (a prev) (e prev) (i prev) (omega prev) (raan prev) value
  end.

(** Reading a field by key, [elements[key]]. *)
Definition getField (key : ParameterKey.t) (elements : OrbitalElements) : R :=
  match key with
  | ParameterKey.A => a elements
  | ParameterKey.E => e elements
  | ParameterKey.I => i elements
  | ParameterKey.OMEGA => omega elements
  | ParameterKey.RAAN => raan elements
  | ParameterKey.NU => nu elements
  end.

(** [handleReset]: [setElements({ ...INITIAL_ELEMENTS })]. *)
Definition handleReset (prev : OrbitalElements) : OrbitalElements :=
  INITIAL_ELEMENTS.

(** ** The [Controls] component *)

Module Controls.

Definition isCircular (elements : OrbitalElements) : bool :=
  if Rlt_dec (e elements) 0.01 then true else false.

Definition isEquatorial (elements : OrbitalElements) : bool :=
  if Rlt_dec (i elements) (0.01 * (PI / 180)) then true else false.

(** The [min] and [max] attributes of the six range inputs. *)
Definition sliderMin (key : ParameterKey.t) : R :=
  match key with
  | ParameterKey.A => 4
  | _ => 0
  end.

Definition sliderMax (key : ParameterKey.t) : R :=
  match key with
  | ParameterKey.A => 15
  | ParameterKey.E => 0.85
  | ParameterKey.I => 180
  | ParameterKey.RAAN => 360
  | ParameterKey.OMEGA => 360
  | ParameterKey.NU => 360
  end.

(** The [onChange] handler of each slider: the two shape sliders pass the
    value on, the four angle sliders convert degrees to radians first. *)
Definition sliderOnChange (key : ParameterKey.t) (v : R)
  (prev : OrbitalElements) : OrbitalElements :=
  match key with
  | ParameterKey.A | ParameterKey.E => handleUpdateElement key v prev
  | _ => handleUpdateElement key (v * (PI / 180)) prev
  end.

End Controls.

(** ** The frame transform as the specification words it

    These definitions follow the wording of the specification; they are
    compared with [perifocalToThree] below. *)

Record Mat3 : Type := mkMat3 { row1 : Vector3; row2 : Vector3; row3 : Vector3 }.

Definition col1 (M : Mat3) : Vector3 := mkVector3 (x (row1 M)) (x (row2 M)) (x (row3 M)).
Definition col2 (M : Mat3) : Vector3 := mkVector3 (y (row1 M)) (y (row2 M)) (y (row3 M)).
Definition col3 (M : Mat3) : Vector3 := mkVector3 (z (row1 M)) (z (row2 M)) (z (row3 M)).

(** Matrix times column vector. *)
Definition mapply (M : Mat3) (v : Vector3) : Vector3 :=
  mkVector3 (dot (row1 M) v) (dot (row2 M) v) (dot (row3 M) v).

(** Matrix product. *)
Definition mmul (M N : Mat3) : Mat3 :=
  let row r := mkVector3 (dot r (col1 N)) (dot r (col2 N)) (dot r (col3 N)) in
  mkMat3 (row (row1 M)) (row (row2 M)) (row (row3 M)).

(** Elementary frame rotation by [theta] about the third axis. *)
Definition R3 (theta : R) : Mat3 :=
  mkMat3 (mkVector3 (cos theta) (sin theta) 0)
         (mkVector3 (- sin theta) (cos theta) 0)
         (mkVector3 0 0 1).

(** Elementary frame rotation by [theta] about the first axis. *)
Definition R1 (theta : R) : Mat3 :=
  mkMat3 (mkVector3 1 0 0)
         (mkVector3 0 (cos theta) (sin theta))
         (mkVector3 0 (- sin theta) (cos theta)).

(** The composed 3-1-3 matrix, row by row as the specification lists it. *)
Definition euler313 (elements : OrbitalElements) : Mat3 :=
  let O := raan elements in
  let w := omega elements in
  let inc := i elements in
  mkMat3
    (mkVector3 (cos O * cos w - sin O * sin w * cos inc)
               (- cos O * sin w - sin O * cos w * cos inc)
               (sin O * sin inc))
    (mkVector3 (sin O * cos w + cos O * sin w * cos inc)
               (- sin O * sin w + cos O * cos w * cos inc)
               (- cos O * sin inc))
    (mkVector3 (sin w * sin inc) (cos w * sin inc) (cos inc)).

(** The axis relabeling: physics X to render X, physics Z to render Y,
    physics Y to render -Z. *)
Definition physicsToRender (p : Vector3) : Vector3 :=
  mkVector3 (x p) (z p) (- y p).

(** The conic equation and the perifocal point of the specification. *)
Definition conicRadius (elements : OrbitalElements) (v : R) : R :=
  a elements * (1 - (e elements) ^ 2) / (1 + e elements * cos v).

Definition perifocalPoint (elements : OrbitalElements) (v : R) : Vector3 :=
  mkVector3 (conicRadius elements v * cos v) (conicRadius elements v * sin v) 0.

(** The domain of the data model: [a > 0] and [0 <= e < 1]. *)
Definition validElements (elements : OrbitalElements) : Prop :=
  0 < a elements /\ 0 <= e elements < 1.

(** A slider value within the [min] and [max] of its range input. *)
Definition inSliderRange (key : ParameterKey.t) (v : R) : Prop :=
  Controls.sliderMin key <= v <= Controls.sliderMax key.

(** The element records the interface can reach: the initial record, a
    slider moved to a value of its range, the reset button.  A slider that
    a singularity flag disables is not excluded, so the set is an upper
    bound of what the interface produces. *)
Inductive reachable : OrbitalElements -> Prop :=
| reach_init : reachable INITIAL_ELEMENTS
| reach_slider key v prev :
    reachable prev -> inSliderRange key v ->
    reachable (Controls.sliderOnChange key v prev)
| reach_reset prev :
    reachable prev -> reachable (handleReset prev).

(** The sample of an orbit path at index [j] of [segments]. *)
Definition pathPoint (elements : OrbitalElements) (segments j : nat) : Vector3 :=
  calculatePosition elements (Some (2 * PI * INR j / INR segments)).

(** ** More of the [Controls] component *)

Module ControlsText.

(** The [value] prop each slider receives: the field itself for the two
    shape sliders, the field in degrees for the four angle sliders. *)
Definition sliderValue (key : ParameterKey.t) (elements : OrbitalElements) : R :=
  match key with
  | ParameterKey.A => a elements
  | ParameterKey.E => e elements
  | ParameterKey.I => i elements * (180 / PI)
  | ParameterKey.RAAN => raan elements * (180 / PI)
  | ParameterKey.OMEGA => omega elements * (180 / PI)
  | ParameterKey.NU => nu elements * (180 / PI)
  end.

Definition getInclinationText (rad : R) : string :=
  let deg := rad * (180 / PI) in
  if Rlt_dec deg 90 then "顺行轨道 (Prograde)"%string
  else if Rlt_dec (Rabs (deg - 90)) 1 then "极地轨道 (Polar)"%string
  else "逆行轨道 (Retrograde)"%string.

Definition getEccentricityText (e : R) : string :=
  if Req_dec_T e 0 then "正圆"%string
  else if Rlt_dec e 0.2 then "近圆"%string
  else if Rlt_dec e 0.8 then "椭圆"%string
  else "高偏心椭圆"%string.

End ControlsText.

(** ** The scene: [VisualGuides] and [OrbitalPlaneSurface] *)

Module VisualGuides.




Definition orbitNormal (elements : OrbitalElements) : Vector3 :=
  multiplyScalar (getOrbitNormal elements) 10.








(** The two early returns of [AngleArc], in the order of the source: no
    point is produced when the cross product of the two normalized vectors
    has a squared length below 0.0001, nor when the angle is below 0.01 in
    absolute value. *)
Definition arcHidden (startVec endVec : Vector3) : bool :=
  let v1 := normalize startVec in
  let v2 := normalize endVec in
  let angle := angleTo v1 v2 in
  let cross := crossVectors v1 v2 in
  if Rlt_dec (lengthSq cross) 0.0001 then true
  else if Rlt_dec (Rabs angle) 0.01 then true
  else false.

End VisualGuides.

Module OrbitalPlaneSurface.

(** [const vertices = [0, 0, 0]; points.forEach(p => vertices.push(p.x, p.y, p.z))]. *)
Definition vertices (points : list Vector3) : list R :=
  fold_left (fun vs p => vs ++ [x p; y p; z p]) points [0; 0; 0].

(** The loop [for (let i = 1; i < points.length; i++) indices.push(0, i, i + 1)]. *)
Equations? indexLoop (len i : nat) (indices : list nat) : list nat
  by wf (len - i)%nat lt :=
  indexLoop len i indices with lt_dec i len => {
    | left Hlt := indexLoop len (S i) (indices ++ [0; i; i + 1]%nat);
    | right _ := indices }.
Proof. lia. Qed.

Definition indices (points : list Vector3) : list nat :=
  indexLoop (List.length points) 1 [].

(** The geometry of the component: the path of 128 segments, its vertex
    buffer and its index buffer. *)
Definition geometry (elements : OrbitalElements) : list R * list nat :=
  let points := generateOrbitPath elements (Some 128%nat) in
  (vertices points, indices points).

(** The vertex of index [m] of a flat buffer of coordinates. *)
Definition vertexAt (buffer : list R) (m : nat) : option Vector3 :=
  match nth_error buffer (3 * m), nth_error buffer (3 * m + 1),
        nth_error buffer (3 * m + 2) with
  | Some vx, Some vy, Some vz => Some (mkVector3 vx vy vz)
  | _, _, _ => None
  end.

End OrbitalPlaneSurface.

(** ** The explanation service, [generateOrbitalExplanation] *)

Module GeminiService.

(** What the body of the [try] block meets: the API key of the environment
    (absent, or a string that may be empty) and the outcome of
    [generateContent] (a rejection, or a response whose [text] may be
    undefined). *)
Inductive ApiOutcome : Type :=
| Rejected
| Responded (text : option string).

Inductive Result (A : Type) : Type :=
| Returned (v : A)
| Thrown.
Arguments Returned {A} v.
Arguments Thrown {A}.

(** The truth value of a string that may be undefined: false when it is
    undefined or empty. *)
Definition truthy (s : option string) : bool :=
  match s with
  | Some EmptyString => false
  | Some _ => true
  | None => false
  end.

(** [getAIClient]: throws when [process.env.API_KEY] is missing. *)
Definition getAIClient (apiKey : option string) : Result unit :=
  if truthy apiKey then Returned tt else Thrown.

(** The body of the [try] block: build the client, call the service,
    return [response.text || "暂无解释。"]. *)
Definition tryBody (apiKey : option string) (outcome : ApiOutcome) : Result string :=
  match getAIClient apiKey with
  | Thrown => Thrown
  | Returned _ =>
      match outcome with
      | Rejected => Thrown
      | Responded text =>
          if truthy text
          then Returned (match text with Some s => s | None => EmptyString end)
          else Returned "暂无解释。"%string
      end
  end.

(** [generateOrbitalExplanation]: the [catch] turns every exception of the
    body into the fallback text. *)
Definition generateOrbitalExplanation (apiKey : option string)
  (outcome : ApiOutcome) : string :=
  match tryBody apiKey outcome with
  | Returned s => s
  | Thrown => "暂时无法获取AI解释。"%string
  end.

End GeminiService.

(** ** The draggable help panel, [HelpModal] *)

Module HelpModal.

Record Point : Type := mkPoint { x : R; y : R }.

Record State : Type := mkState {
  position : Point;
  isDragging : bool;
  dragOffset : Point
}.

Definition initial : State :=
  mkState (mkPoint 40 40) false (mkPoint 0 0).

Definition handlePointerDown (clientX clientY : R) (s : State) : State :=
  mkState (position s) true
          (mkPoint (clientX - x (position s)) (clientY - y (position s))).

Definition handlePointerMove (clientX clientY : R) (s : State) : State :=
  if isDragging s
  then mkState (mkPoint (clientX - x (dragOffset s)) (clientY - y (dragOffset s)))
               (isDragging s) (dragOffset s)
  else s.

Definition handlePointerUp (s : State) : State :=
  mkState (position s) false (dragOffset s).

(** A run of pointer moves, each at a client position. *)
Definition moves (path : list (R * R)) (s : State) : State :=
  fold_left (fun st c => handlePointerMove (fst c) (snd c) st) path s.

End HelpModal.

(** ** Rounding

    Doubles round: an equation that holds of the real-number model, where it
    holds exactly and on every record, can differ in the last digits in the
    code, and fails altogether where a double overflows or a divisor is zero.
    Statements about computed values are therefore made up to [tolerance] and
    on the records the sliders produce, where the differences of the code are
    of the order of [1e-14], and the code is evaluated at chosen records in
    the model over IEEE doubles below. *)

Definition tolerance : R := 1 / 1000000000.

Definition near (u v : R) : Prop := Rabs (u - v) <= tolerance.





(** ** [src/utils/orbitalMath.ts] over IEEE doubles

    The same functions with the arithmetic of binary64: [+], [-], [*], [/]
    and [Math.sqrt] are the primitive operations on floats.  [Math.cos] and
    [Math.sin] belong to the engine and are parameters of the functions; the
    evaluations below use the table [Math_cos], [Math_sin] of their values at
    the arguments involved. *)

Module IEEE.

Import PrimFloat.
Local Open Scope float_scope.

Record Vector3 : Type := mkVector3 { x : float; y : float; z : float }.

Definition length (v : Vector3) : float :=
  sqrt (x v * x v + y v * y v + z v * z v).

Definition multiplyScalar (v : Vector3) (scalar : float) : Vector3 :=
  mkVector3 (x v * scalar) (y v * scalar) (z v * scalar).

Definition divideScalar (v : Vector3) (scalar : float) : Vector3 :=
  multiplyScalar v (1 / scalar).

(** [l || 1]: [1] when [l] is zero or NaN, [l] otherwise. *)
Definition orOne (l : float) : float :=
  if orb (l =? 0) (is_nan l) then 1 else l.

Definition normalize (v : Vector3) : Vector3 :=
  divideScalar v (orOne (length v)).

Definition dot (u v : Vector3) : float :=
  x u * x v + y u * y v + z u * z v.

Definition negate (v : Vector3) : Vector3 :=
  mkVector3 (- x v) (- y v) (- z v).


Record OrbitalElements : Type := mkElements {
  a : float; e : float; i : float; omega : float; raan : float; nu : float
}.

(** [Math.PI]. *)
Definition Math_PI : float := 0x1.921fb54442d18p+1.

Section Engine.

Variables cos sin : float -> float.

Definition perifocalToThree (x_orb y_orb z_orb : float) (elements : OrbitalElements)
  : Vector3 :=
  let cos_O := cos (raan elements) in
  let sin_O := sin (raan elements) in
  let cos_w := cos (omega elements) in
  let sin_w := sin (omega elements) in
  let cos_i := cos (i elements) in
  let sin_i := sin (i elements) in
  let xx := cos_O * cos_w - sin_O * sin_w * cos_i in
  let xy := - cos_O * sin_w - sin_O * cos_w * cos_i in
  let xz := sin_O * sin_i in
  let yx := sin_O * cos_w + cos_O * sin_w * cos_i in
  let yy := - sin_O * sin_w + cos_O * cos_w * cos_i in
  let yz := - cos_O * sin_i in
  let zx := sin_w * sin_i in
  let zy := cos_w * sin_i in
  let zz := cos_i in
  let X := xx * x_orb + xy * y_orb + xz * z_orb in
  let Y := yx * x_orb + yy * y_orb + yz * z_orb in
  let Z := zx * x_orb + zy * y_orb + zz * z_orb in
  mkVector3 X Z (- Y).

Definition calculatePosition (elements : OrbitalElements) (anomaly : option float)
  : Vector3 :=
  let nu := match anomaly with Some v => v | None => nu elements end in
  let r := (a elements * (1 - e elements * e elements))
           / (1 + e elements * cos nu) in
  let x_orb := r * cos nu in
  let y_orb := r * sin nu in
  let z_orb := 0 in
  perifocalToThree x_orb y_orb z_orb elements.

(** The loop of [generateOrbitPath], with the counter [j] a double as in the
    source; [fuel] bounds the number of iterations evaluated. *)
Fixpoint pathLoop (elements : OrbitalElements) (segments : float) (fuel : nat)
  (j : float) (points : list Vector3) : list Vector3 :=
  match fuel with
  | O => points
  | S fuel' =>
      if j <=? segments
      then
        let nu := (j / segments) * 2 * Math_PI in
        pathLoop elements segments fuel' (j + 1)
          (points ++ [calculatePosition elements (Some nu)])
      else points
  end.

Definition generateOrbitPath (elements : OrbitalElements) (segments : float)
  (fuel : nat) : list Vector3 :=
  pathLoop elements segments fuel 0 [].

Definition getNodeVector (elements : OrbitalElements) : Vector3 :=
  normalize (mkVector3 (cos (raan elements)) 0 (- sin (raan elements))).

Definition getPerigeeVector (elements : OrbitalElements) : Vector3 :=
  normalize (calculatePosition elements (Some 0)).

Definition getOrbitNormal (elements : OrbitalElements) : Vector3 :=
  normalize (perifocalToThree 0 0 1 elements).

End Engine.

Definition deg30 : float := 30 * (Math_PI / 180).
Definition deg45 : float := 45 * (Math_PI / 180).



(** [INITIAL_ELEMENTS] of [src/App.tsx]. *)
Definition INITIAL_ELEMENTS : OrbitalElements :=
  mkElements 8 0x1.999999999999ap-2 deg45 deg45 deg30 0.







End IEEE.

(** * Auxiliary facts *)

Ltac vec_eq :=
  cbv [perifocalToThree calculatePosition physicsToRender mapply mmul euler313
       R3 R1 col1 col2 col3 row1 row2 row3 dot multiplyScalar divideScalar
       negate perifocalPoint conicRadius anomalyOf x y z];
  f_equal; try ring.

Section Vectors.


Lemma dot_self_nonneg (v : Vector3) : 0 <= dot v v.
Proof. unfold dot. nra. Qed.

Lemma length_dot (v : Vector3) : length v = sqrt (dot v v).
Proof. reflexivity. Qed.

Lemma dot_multiplyScalar_l (u v : Vector3) (s : R) :
  dot (multiplyScalar u s) v = s * dot u v.
Proof. unfold dot, multiplyScalar; simpl; ring. Qed.

Lemma dot_multiplyScalar_r (u v : Vector3) (s : R) :
  dot u (multiplyScalar v s) = s * dot u v.
Proof. unfold dot, multiplyScalar; simpl; ring. Qed.

Lemma length_multiplyScalar (v : Vector3) (s : R) :
  length (multiplyScalar v s) = Rabs s * length v.
Proof.
  rewrite !length_dot, dot_multiplyScalar_l, dot_multiplyScalar_r.
  replace (s * (s * dot v v)) with (Rsqr s * dot v v) by (unfold Rsqr; ring).
  rewrite sqrt_mult by (auto using Rle_0_sqr, dot_self_nonneg).
  now rewrite sqrt_Rsqr_abs.
Qed.

Lemma orOne_nonzero (l : R) : orOne l <> 0.
Proof. unfold orOne. destruct (Req_dec_T l 0); lra. Qed.

Lemma orOne_pos (l : R) : 0 <= l -> 0 < orOne l.
Proof. unfold orOne. destruct (Req_dec_T l 0); lra. Qed.

Lemma orOne_id (l : R) : l <> 0 -> orOne l = l.
Proof. unfold orOne. destruct (Req_dec_T l 0); tauto. Qed.

Lemma length_nonneg (v : Vector3) : 0 <= length v.
Proof. apply sqrt_pos. Qed.

Lemma normalize_scale (v : Vector3) :
  normalize v = multiplyScalar v (1 / orOne (length v)).
Proof. reflexivity. Qed.

Lemma multiplyScalar_1 (v : Vector3) : multiplyScalar v 1 = v.
Proof. destruct v; unfold multiplyScalar; simpl; f_equal; ring. Qed.

Lemma multiplyScalar_assoc (v : Vector3) (s t : R) :
  multiplyScalar (multiplyScalar v s) t = multiplyScalar v (s * t).
Proof. unfold multiplyScalar; simpl; f_equal; ring. Qed.

Lemma normalize_unit (v : Vector3) : length v = 1 -> normalize v = v.
Proof.
  intros H. rewrite normalize_scale, H, orOne_id by lra.
  replace (1 / 1) with 1 by field. apply multiplyScalar_1.
Qed.

Lemma length_normalize (v : Vector3) :
  length v <> 0 -> length (normalize v) = 1.
Proof.
  intros H. rewrite normalize_scale, length_multiplyScalar, orOne_id by assumption.
  pose proof (length_nonneg v).
  rewrite Rabs_pos_eq.
  - now field.
  - apply Rlt_le, Rdiv_lt_0_compat; lra.
Qed.


End Vectors.

Section Frame.

Lemma rot2_dot (c s x1 y1 x2 y2 : R) :
  s * s + c * c = 1 ->
  (c * x1 + s * y1) * (c * x2 + s * y2)
  + (- s * x1 + c * y1) * (- s * x2 + c * y2) = x1 * x2 + y1 * y2.
Proof.
  intros H.
  transitivity ((s * s + c * c) * (x1 * x2 + y1 * y2)); [ring | rewrite H; ring].
Qed.

Lemma sin_cos_sq (t : R) : sin t * sin t + cos t * cos t = 1.
Proof. exact (sin2_cos2 t). Qed.

Lemma R3_dot (t : R) (u v : Vector3) :
  dot (mapply (R3 t) u) (mapply (R3 t) v) = dot u v.
Proof.
  pose proof (rot2_dot (cos t) (sin t) (x u) (y u) (x v) (y v) (sin_cos_sq t)) as H.
  cbv [dot mapply R3 row1 row2 row3 x y z].
  destruct u as [x1 y1 z1], v as [x2 y2 z2]; simpl in *.
  ring_simplify in H. ring_simplify. lra.
Qed.

Lemma R1_dot (t : R) (u v : Vector3) :
  dot (mapply (R1 t) u) (mapply (R1 t) v) = dot u v.
Proof.
  pose proof (rot2_dot (cos t) (sin t) (y u) (z u) (y v) (z v) (sin_cos_sq t)) as H.
  cbv [dot mapply R1 row1 row2 row3 x y z].
  destruct u as [x1 y1 z1], v as [x2 y2 z2]; simpl in *.
  ring_simplify in H. ring_simplify. lra.
Qed.

Lemma physicsToRender_dot (u v : Vector3) :
  dot (physicsToRender u) (physicsToRender v) = dot u v.
Proof. unfold dot, physicsToRender; simpl; ring. Qed.

Lemma mapply_mmul (M N : Mat3) (v : Vector3) :
  mapply (mmul M N) v = mapply M (mapply N v).
Proof. vec_eq. Qed.

(** The listed rows are the product of the three elementary rotations of
    the 3-1-3 sequence: by [-raan] about the pole, by [-i] about the line
    of nodes, by [-omega] about the angular momentum. *)
Lemma euler313_compose (elements : OrbitalElements) :
  euler313 elements
  = mmul (R3 (- raan elements)) (mmul (R1 (- i elements)) (R3 (- omega elements))).
Proof.
  cbv [euler313 mmul R3 R1 col1 col2 col3 row1 row2 row3 dot x y z].
  rewrite !cos_neg, !sin_neg.
  f_equal; (f_equal; ring).
Qed.

Lemma perifocalToThree_euler (x_orb y_orb z_orb : R) (elements : OrbitalElements) :
  perifocalToThree x_orb y_orb z_orb elements
  = physicsToRender (mapply (euler313 elements) (mkVector3 x_orb y_orb z_orb)).
Proof. vec_eq. Qed.

Lemma euler313_dot (elements : OrbitalElements) (u v : Vector3) :
  dot (mapply (euler313 elements) u) (mapply (euler313 elements) v) = dot u v.
Proof.
  rewrite euler313_compose, !mapply_mmul, R3_dot, R1_dot, R3_dot. reflexivity.
Qed.

Lemma perifocalToThree_dot (elements : OrbitalElements) (x1 y1 z1 x2 y2 z2 : R) :
  dot (perifocalToThree x1 y1 z1 elements) (perifocalToThree x2 y2 z2 elements)
  = x1 * x2 + y1 * y2 + z1 * z2.
Proof.
  rewrite !perifocalToThree_euler, physicsToRender_dot, euler313_dot. reflexivity.
Qed.

Lemma perifocalToThree_length (elements : OrbitalElements) (x_orb y_orb z_orb : R) :
  length (perifocalToThree x_orb y_orb z_orb elements)
  = length (mkVector3 x_orb y_orb z_orb).
Proof. rewrite !length_dot, perifocalToThree_dot. reflexivity. Qed.


End Frame.

Section Position.

Lemma conicDivisor_pos (elements : OrbitalElements) (anomaly : option R) :
  validElements elements -> 0 < conicDivisor elements anomaly.
Proof.
  intros [_ [He0 He1]]. unfold conicDivisor.
  pose proof (COS_bound (anomalyOf elements anomaly)) as [Hc _].
  nra.
Qed.


Lemma calculatePosition_perifocal (elements : OrbitalElements) (anomaly : option R) :
  calculatePosition elements anomaly
  = perifocalToThree
      (x (perifocalPoint elements (anomalyOf elements anomaly)))
      (y (perifocalPoint elements (anomalyOf elements anomaly)))
      (z (perifocalPoint elements (anomalyOf elements anomaly))) elements.
Proof.
  unfold calculatePosition, perifocalPoint, conicRadius; cbn [x y z].
  replace (e elements ^ 2) with (e elements * e elements) by ring.
  reflexivity.
Qed.









End Position.

Section Path.

Lemma pathLoop_spec (elements : OrbitalElements) (segments j : nat)
      (points : list Vector3) :
  pathLoop elements segments j points
  = points ++ map (fun k => calculatePosition elements
                              (Some ((INR k / INR segments) * 2 * PI)))
                  (seq j (S segments - j)).
Proof.
  funelim (pathLoop elements segments j points).
  - rewrite H. rewrite <- app_assoc. f_equal.
    replace (S segments - j)%nat with (S (S segments - S j)) by lia.
    reflexivity.
  - replace (S segments - j)%nat with 0%nat by lia.
    simpl. now rewrite app_nil_r.
Qed.

Lemma generateOrbitPath_map (elements : OrbitalElements) (segments : nat) :
  (1 <= segments)%nat ->
  generateOrbitPath elements (Some segments)
  = map (pathPoint elements segments) (seq 0 (S segments)).
Proof.
  intros Hn. unfold generateOrbitPath. rewrite pathLoop_spec.
  rewrite Nat.sub_0_r, app_nil_l. apply map_ext. intros k.
  unfold pathPoint. do 2 f_equal. field.
  apply not_0_INR. lia.
Qed.

End Path.

Section Constants.

Lemma PI_bounds : 3.1415 < PI < 3.1421.
Proof.
  pose proof (PI_2_3_7_ineq 1) as [Hlo Hhi].
  unfold sum_f_R0, tg_alt, PI_2_3_7_tg, Ratan_seq in Hlo, Hhi.
  simpl in Hlo, Hhi.
  split; lra.
Qed.

End Constants.

Section PathPoints.





Lemma length_normal (elements : OrbitalElements) :
  length (perifocalToThree 0 0 1 elements) = 1.
Proof.
  rewrite perifocalToThree_length. unfold length; simpl.
  replace (0 * 0 + 0 * 0 + 1 * 1) with 1 by ring. apply sqrt_1.
Qed.

Lemma getOrbitNormal_value (elements : OrbitalElements) :
  getOrbitNormal elements = perifocalToThree 0 0 1 elements.
Proof. unfold getOrbitNormal. apply normalize_unit, length_normal. Qed.

End PathPoints.

(** * The claims *)



(** C2. On a record with [a > 0] and [0 <= e < 1], [calculatePosition] takes
    the anomaly argument when it is supplied and [elements.nu] otherwise,
    computes [r = a (1 - e^2) / (1 + e cos nu)] with a nonzero divisor, and
    returns [perifocalToThree] at the perifocal point
    [(r cos nu, r sin nu, 0)]. *)
Theorem C2_calculatePosition_conic_point (elements : OrbitalElements)
        (anomaly : option R) :
  0 < a elements -> 0 <= e elements < 1 ->
  let v := match anomaly with Some supplied => supplied | None => nu elements end in
  let r := a elements * (1 - (e elements) ^ 2) / (1 + e elements * cos v) in
  1 + e elements * cos v <> 0
  /\ calculatePosition elements anomaly
     = perifocalToThree (r * cos v) (r * sin v) 0 elements.
Proof.
  intros Ha He v r. split.
  - pose proof (conicDivisor_pos elements anomaly (conj Ha He)) as Hd.
    unfold conicDivisor, anomalyOf in Hd. fold v in Hd. lra.
  - apply calculatePosition_perifocal.
Qed.

Lemma C2_witness :
  let v := nu INITIAL_ELEMENTS in
  let r := a INITIAL_ELEMENTS * (1 - (e INITIAL_ELEMENTS) ^ 2)
           / (1 + e INITIAL_ELEMENTS * cos v) in
  1 + e INITIAL_ELEMENTS * cos v <> 0
  /\ calculatePosition INITIAL_ELEMENTS None
     = perifocalToThree (r * cos v) (r * sin v) 0 INITIAL_ELEMENTS.
Proof.
  apply (C2_calculatePosition_conic_point INITIAL_ELEMENTS None); simpl; lra.
Defined.

Section ElementState.

Lemma handleUpdateElement_stores (key : ParameterKey.t) (value : R)
      (prev : OrbitalElements) :
  getField key (handleUpdateElement key value prev) = value.
Proof. destruct key; reflexivity. Qed.

Lemma handleUpdateElement_others (key key' : ParameterKey.t) (value : R)
      (prev : OrbitalElements) :
  key <> key' ->
  getField key' (handleUpdateElement key value prev) = getField key' prev.
Proof. destruct key, key'; intros H; try reflexivity; now elim H. Qed.

Lemma validElements_initial : validElements INITIAL_ELEMENTS.
Proof. unfold validElements; simpl; lra. Qed.

Lemma sliderOnChange_valid (key : ParameterKey.t) (v : R) (prev : OrbitalElements) :
  validElements prev -> inSliderRange key v ->
  validElements (Controls.sliderOnChange key v prev).
Proof.
  unfold validElements, inSliderRange.
  destruct key; simpl; intros [Ha He] Hr; lra.
Qed.

Lemma reachable_valid (elements : OrbitalElements) :
  reachable elements -> validElements elements.
Proof.
  induction 1 as [| key v prev _ IH Hr | prev _ _].
  - exact validElements_initial.
  - now apply sliderOnChange_valid.
  - exact validElements_initial.
Qed.

End ElementState.

(** C3, as the specification states it, fails: [handleUpdateElement] stores
    the eccentricity [1] in the initial record unchanged; the record it
    returns is outside the domain, and at the anomaly [PI] the divisor of the
    conic equation in [calculatePosition] is zero on it.  Likewise a
    semi-major axis of [0] is stored as it is. *)
Lemma C3_counterexample_update_accepts_e_1 :
  validElements INITIAL_ELEMENTS
  /\ e (handleUpdateElement ParameterKey.E 1 INITIAL_ELEMENTS) = 1
  /\ ~ validElements (handleUpdateElement ParameterKey.E 1 INITIAL_ELEMENTS)
  /\ conicDivisor (handleUpdateElement ParameterKey.E 1 INITIAL_ELEMENTS) (Some PI) = 0
  /\ a (handleUpdateElement ParameterKey.A 0 INITIAL_ELEMENTS) = 0
  /\ ~ validElements (handleUpdateElement ParameterKey.A 0 INITIAL_ELEMENTS).
Proof.
  refine (conj validElements_initial (conj eq_refl (conj _ (conj _ (conj eq_refl _))))).
  - unfold validElements; simpl; lra.
  - unfold conicDivisor; simpl. rewrite cos_PI. ring.
  - unfold validElements; simpl; lra.
Qed.

(** C3, amended.  [handleUpdateElement] neither rejects nor clamps: it
    stores the supplied value in the keyed field and leaves the other fields
    as they were.  The domain is kept by the ranges of the sliders instead
    ([a] in [4, 15], [e] in [0, 0.85]): a slider change within its range
    keeps [a > 0] and [0 <= e < 1], every record reachable from the initial
    one by such changes and resets is in the domain, and on a record of the
    domain the divisor [1 + e cos nu] is positive for every anomaly. *)
Theorem C3_domain_kept_by_slider_ranges :
  (forall key value prev,
      getField key (handleUpdateElement key value prev) = value)
  /\ (forall key key' value prev,
         key <> key' ->
         getField key' (handleUpdateElement key value prev) = getField key' prev)
  /\ (forall key v prev,
         validElements prev -> inSliderRange key v ->
         validElements (Controls.sliderOnChange key v prev))
  /\ (forall elements, reachable elements -> validElements elements)
  /\ (forall elements anomaly,
         validElements elements -> 0 < conicDivisor elements anomaly).
Proof.
  exact (conj handleUpdateElement_stores
          (conj handleUpdateElement_others
             (conj sliderOnChange_valid
                (conj reachable_valid conicDivisor_pos)))).
Qed.

Lemma C3_witness :
  validElements (Controls.sliderOnChange ParameterKey.E 0.85 INITIAL_ELEMENTS)
  /\ 0 < conicDivisor
           (Controls.sliderOnChange ParameterKey.E 0.85 INITIAL_ELEMENTS) (Some PI).
Proof.
  destruct C3_domain_kept_by_slider_ranges as (_ & _ & Hslider & _ & Hdiv).
  assert (Hv : validElements
                 (Controls.sliderOnChange ParameterKey.E 0.85 INITIAL_ELEMENTS)).
  { apply Hslider.
    - unfold validElements; simpl; lra.
    - unfold inSliderRange; simpl; lra. }
  split; [exact Hv | apply Hdiv; exact Hv].
Defined.

Section PerigeeApogee.






End PerigeeApogee.

Section Tolerance.




Lemma near_bounds (u v : R) : near u v -> v - tolerance <= u <= v + tolerance.
Proof.
  unfold near, Rabs. intros H. destruct (Rcase_abs (u - v)); lra.
Qed.



End Tolerance.




Section ClosedLoop.

Lemma generateOrbitPath_length (elements : OrbitalElements) (segments : nat) :
  (1 <= segments)%nat ->
  List.length (generateOrbitPath elements (Some segments)) = S segments.
Proof.
  intros Hn. rewrite generateOrbitPath_map by assumption.
  now rewrite length_map, length_seq.
Qed.




End ClosedLoop.




Section Flags.

Lemma isCircular_iff (elements : OrbitalElements) :
  Controls.isCircular elements = true <-> e elements < 0.01.
Proof.
  unfold Controls.isCircular. destruct (Rlt_dec (e elements) 0.01); split;
    intros; try assumption; try reflexivity; try discriminate; contradiction.
Qed.

Lemma isEquatorial_iff (elements : OrbitalElements) :
  Controls.isEquatorial elements = true <-> i elements < 0.01 * (PI / 180).
Proof.
  unfold Controls.isEquatorial.
  destruct (Rlt_dec (i elements) (0.01 * (PI / 180))); split;
    intros; try assumption; try reflexivity; try discriminate; contradiction.
Qed.

End Flags.

(** C6. [isCircular] holds exactly when [e < 0.01], [isEquatorial] exactly
    when [i] is below 0.01 degrees in radians, a threshold between
    [1.745e-4] and [1.746e-4]; each flag is a function of the current value of
    its one field and of nothing else. *)
Theorem C6_singularity_flags :
  (forall elements, Controls.isCircular elements = true <-> e elements < 0.01)
  /\ (forall elements,
         Controls.isEquatorial elements = true <-> i elements < degToRad 0.01)
  /\ degToRad 0.01 = 0.01 * PI / 180
  /\ 0.0001745 < degToRad 0.01 < 0.0001746
  /\ (forall elements elements',
         e elements = e elements' ->
         Controls.isCircular elements = Controls.isCircular elements')
  /\ (forall elements elements',
         i elements = i elements' ->
         Controls.isEquatorial elements = Controls.isEquatorial elements').
Proof.
  split; [| split; [| split; [| split; [| split]]]].
  - exact isCircular_iff.
  - exact isEquatorial_iff.
  - unfold degToRad. field.
  - unfold degToRad. pose proof PI_bounds. lra.
  - intros elements elements' H. unfold Controls.isCircular. now rewrite H.
  - intros elements elements' H. unfold Controls.isEquatorial. now rewrite H.
Qed.

Lemma C6_witness :
  Controls.isCircular (handleUpdateElement ParameterKey.NU PI INITIAL_ELEMENTS)
  = Controls.isCircular INITIAL_ELEMENTS.
Proof.
  apply (proj1 (proj2 (proj2 (proj2 (proj2 C6_singularity_flags))))).
  reflexivity.
Defined.

Section Normal.



End Normal.




Section Circular.



(** With [e = 0] the argument of perigee only shifts the anomaly. *)
Lemma calculatePosition_omega_shift (elements : OrbitalElements) (w v : R) :
  e elements = 0 ->
  calculatePosition (handleUpdateElement ParameterKey.OMEGA w elements) (Some v)
  = calculatePosition (handleUpdateElement ParameterKey.OMEGA 0 elements)
                      (Some (v + w)).
Proof.
  intros He.
  cbv [calculatePosition perifocalToThree handleUpdateElement anomalyOf
       a e i omega raan nu].
  destruct elements as [a0 e0 i0 w0 O0 nu0]; simpl in He; subst e0.
  rewrite cos_plus, sin_plus, cos_0, sin_0.
  f_equal; field; lra.
Qed.

Lemma handleUpdateElement_omega_same (elements : OrbitalElements) :
  handleUpdateElement ParameterKey.OMEGA (omega elements) elements = elements.
Proof. destruct elements; reflexivity. Qed.

Lemma circular_same_points (elements : OrbitalElements) (w : R) (p : Vector3) :
  e elements = 0 ->
  (exists v, calculatePosition
               (handleUpdateElement ParameterKey.OMEGA w elements) (Some v) = p)
  <-> (exists v, calculatePosition elements (Some v) = p).
Proof.
  intros He. split; intros [v Hv].
  - exists (v + w - omega elements).
    rewrite <- (handleUpdateElement_omega_same elements) at 1.
    rewrite calculatePosition_omega_shift by assumption.
    rewrite calculatePosition_omega_shift in Hv by assumption.
    rewrite <- Hv. do 2 f_equal. ring.
  - exists (v + omega elements - w).
    rewrite <- (handleUpdateElement_omega_same elements) in Hv.
    rewrite calculatePosition_omega_shift in Hv by assumption.
    rewrite calculatePosition_omega_shift by assumption.
    rewrite <- Hv. do 2 f_equal. ring.
Qed.


End Circular.




Section Node.



End Node.







(** * Further properties of the code *)

(** ** Angle conversion and the sliders *)



Section Sliders.

Lemma sliderValue_onChange_same (key : ParameterKey.t) (v : R)
      (prev : OrbitalElements) :
  ControlsText.sliderValue key (Controls.sliderOnChange key v prev) = v.
Proof.
  destruct key; simpl; try reflexivity; field; apply PI_neq0.
Qed.

Lemma sliderValue_onChange_other (key key' : ParameterKey.t) (v : R)
      (prev : OrbitalElements) :
  key' <> key ->
  ControlsText.sliderValue key' (Controls.sliderOnChange key v prev)
  = ControlsText.sliderValue key' prev.
Proof.
  destruct key, key'; intros H; try reflexivity; now elim H.
Qed.

Lemma key_eq_dec (key key' : ParameterKey.t) : {key = key'} + {key <> key'}.
Proof. decide equality. Qed.

Lemma initial_in_range (key : ParameterKey.t) :
  inSliderRange key (ControlsText.sliderValue key INITIAL_ELEMENTS).
Proof.
  pose proof PI_RGT_0 as Hpi.
  unfold inSliderRange. destruct key; simpl; try lra.
  - replace (45 * (PI / 180) * (180 / PI)) with 45 by (field; lra). lra.
  - replace (45 * (PI / 180) * (180 / PI)) with 45 by (field; lra). lra.
  - replace (30 * (PI / 180) * (180 / PI)) with 30 by (field; lra). lra.
Qed.

Lemma reachable_in_range (elements : OrbitalElements) :
  reachable elements ->
  forall key, inSliderRange key (ControlsText.sliderValue key elements).
Proof.
  induction 1 as [| key v prev _ IH Hr | prev _ _]; intros key'.
  - apply initial_in_range.
  - destruct (key_eq_dec key' key) as [-> | Hne].
    + now rewrite sliderValue_onChange_same.
    + rewrite sliderValue_onChange_other by assumption. apply IH.
  - apply initial_in_range.
Qed.

Lemma degrees_bound (angle hi : R) :
  0 <= angle * (180 / PI) <= hi -> 0 <= angle <= hi * (PI / 180).
Proof.
  pose proof PI_RGT_0 as Hpi. intros [Hlo Hhi].
  assert (Hk : 0 < 180 / PI) by (apply Rdiv_lt_0_compat; lra).
  assert (Heq : angle = angle * (180 / PI) * (PI / 180)) by (field; lra).
  assert (Hq : 0 < PI / 180) by lra.
  split; rewrite Heq.
  - apply Rmult_le_pos; lra.
  - apply Rmult_le_compat_r; lra.
Qed.

End Sliders.



(** X3. Every record reachable from the initial one by slider changes within
    their ranges and by resets shows, on each slider, a value within that
    slider's range; in radians, the inclination stays in [0, PI] and the
    three other angles in [0, 2 PI]. *)
Theorem X3_reachable_values_in_slider_ranges (elements : OrbitalElements) :
  reachable elements ->
  (forall key, inSliderRange key (ControlsText.sliderValue key elements))
  /\ 4 <= a elements <= 15
  /\ 0 <= e elements <= 0.85
  /\ 0 <= i elements <= PI
  /\ 0 <= omega elements <= 2 * PI
  /\ 0 <= raan elements <= 2 * PI
  /\ 0 <= nu elements <= 2 * PI.
Proof.
  intros Hr. pose proof (reachable_in_range elements Hr) as H.
  split; [exact H|].
  pose proof (H ParameterKey.A) as HA. pose proof (H ParameterKey.E) as HE.
  pose proof (degrees_bound _ _ (H ParameterKey.I)) as HI.
  pose proof (degrees_bound _ _ (H ParameterKey.OMEGA)) as HW.
  pose proof (degrees_bound _ _ (H ParameterKey.RAAN)) as HO.
  pose proof (degrees_bound _ _ (H ParameterKey.NU)) as HN.
  unfold inSliderRange in HA, HE. simpl in *.
  repeat split; lra.
Qed.

Lemma X3_witness :
  0 <= i (Controls.sliderOnChange ParameterKey.I 180 INITIAL_ELEMENTS) <= PI.
Proof.
  apply (X3_reachable_values_in_slider_ranges
           (Controls.sliderOnChange ParameterKey.I 180 INITIAL_ELEMENTS)).
  apply reach_slider.
  - apply reach_init.
  - unfold inSliderRange; simpl; lra.
Defined.

(** X4. Field updates compose as record updates should: a second update of
    the same field overrides the first, updates of different fields commute,
    and writing back the value a field already has changes nothing. *)
Theorem X4_handleUpdateElement_laws :
  (forall key v1 v2 prev,
      handleUpdateElement key v2 (handleUpdateElement key v1 prev)
      = handleUpdateElement key v2 prev)
  /\ (forall key1 key2 v1 v2 prev,
         key1 <> key2 ->
         handleUpdateElement key2 v2 (handleUpdateElement key1 v1 prev)
         = handleUpdateElement key1 v1 (handleUpdateElement key2 v2 prev))
  /\ (forall key prev,
         handleUpdateElement key (getField key prev) prev = prev).
Proof.
  split; [| split].
  - intros key v1 v2 prev. destruct key; reflexivity.
  - intros key1 key2 v1 v2 prev H.
    destruct key1, key2; try reflexivity; now elim H.
  - intros key prev. destruct key, prev; reflexivity.
Qed.

Lemma X4_witness :
  handleUpdateElement ParameterKey.E 0.1
    (handleUpdateElement ParameterKey.A 10 INITIAL_ELEMENTS)
  = handleUpdateElement ParameterKey.A 10
      (handleUpdateElement ParameterKey.E 0.1 INITIAL_ELEMENTS).
Proof.
  apply (proj1 (proj2 X4_handleUpdateElement_laws)). discriminate.
Defined.

(** X5. [getInclinationText] answers prograde exactly below 90 degrees,
    polar exactly from 90 degrees up to, not including, 91 degrees, and
    retrograde exactly from 91 degrees on: the test [|deg - 90| < 1] is
    reached only when [deg >= 90], so an inclination just below 90 degrees
    is called prograde, not polar. *)
Theorem X5_getInclinationText_cases (rad : R) :
  (ControlsText.getInclinationText rad = "顺行轨道 (Prograde)"%string
   <-> radToDeg rad < 90)
  /\ (ControlsText.getInclinationText rad = "极地轨道 (Polar)"%string
      <-> 90 <= radToDeg rad < 91)
  /\ (ControlsText.getInclinationText rad = "逆行轨道 (Retrograde)"%string
      <-> 91 <= radToDeg rad).
Proof.
  unfold ControlsText.getInclinationText, radToDeg.
  set (deg := rad * (180 / PI)).
  destruct (Rlt_dec deg 90) as [Hlt | Hge].
  - repeat split; intros; try reflexivity; try discriminate; try lra.
  - destruct (Rlt_dec (Rabs (deg - 90)) 1) as [Hab | Hab];
      unfold Rabs in Hab; destruct (Rcase_abs (deg - 90));
      repeat split; intros; try reflexivity; try discriminate; try lra.
Qed.

(** X6. [getEccentricityText] answers "circle" exactly at [e = 0], "near
    circle" exactly for the other [e < 0.2] (negative values included),
    "ellipse" exactly for [0.2 <= e < 0.8] and "high eccentricity" exactly
    for [e >= 0.8]; whenever [isCircular] disables the slider of the
    argument of perigee, the text is one of the first two. *)
Theorem X6_getEccentricityText_cases :
  (forall ecc,
      (ControlsText.getEccentricityText ecc = "正圆"%string <-> ecc = 0)
      /\ (ControlsText.getEccentricityText ecc = "近圆"%string
          <-> ecc <> 0 /\ ecc < 0.2)
      /\ (ControlsText.getEccentricityText ecc = "椭圆"%string
          <-> 0.2 <= ecc < 0.8)
      /\ (ControlsText.getEccentricityText ecc = "高偏心椭圆"%string
          <-> 0.8 <= ecc))
  /\ (forall elements,
         Controls.isCircular elements = true ->
         ControlsText.getEccentricityText (e elements) = "正圆"%string
         \/ ControlsText.getEccentricityText (e elements) = "近圆"%string).
Proof.
  split.
  - intros ecc. unfold ControlsText.getEccentricityText.
    destruct (Req_dec_T ecc 0) as [H0 | H0];
      [| destruct (Rlt_dec ecc 0.2) as [H2 | H2];
         [| destruct (Rlt_dec ecc 0.8) as [H8 | H8]]];
      repeat split; intros; try reflexivity; try discriminate;
        try lra; try tauto;
        try match goal with H : _ /\ _ |- _ => destruct H end; try lra.
  - intros elements Hc. apply isCircular_iff in Hc.
    unfold ControlsText.getEccentricityText.
    destruct (Req_dec_T (e elements) 0); [now left|].
    destruct (Rlt_dec (e elements) 0.2); [now right | lra].
Qed.

Lemma X6_witness :
  ControlsText.getEccentricityText
    (e (handleUpdateElement ParameterKey.E 0 INITIAL_ELEMENTS)) = "正圆"%string
  \/ ControlsText.getEccentricityText
       (e (handleUpdateElement ParameterKey.E 0 INITIAL_ELEMENTS)) = "近圆"%string.
Proof.
  apply (proj2 X6_getEccentricityText_cases).
  unfold Controls.isCircular; simpl.
  destruct (Rlt_dec 0 0.01); [reflexivity | lra].
Defined.

(** ** The ellipse *)


Section Ellipse.












End Ellipse.









Section NodeLine.




End NodeLine.





Section Arcs.

Lemma lengthSq_unit (u : Vector3) : length u = 1 -> lengthSq u = 1.
Proof.
  intros H. unfold length in H. fold (lengthSq u) in H.
  assert (Hn : 0 <= lengthSq u) by (unfold lengthSq; nra).
  rewrite <- (sqrt_sqrt (lengthSq u) Hn), H. ring.
Qed.


Lemma normalize_scaled_unit (u : Vector3) (s : R) :
  length u = 1 -> 0 < s -> normalize (multiplyScalar u s) = u.
Proof.
  intros Hu Hs.
  rewrite normalize_scale, length_multiplyScalar, Hu, Rmult_1_r.
  rewrite Rabs_pos_eq, orOne_id, multiplyScalar_assoc by lra.
  replace (s * (1 / s)) with 1 by (field; lra).
  apply multiplyScalar_1.
Qed.




Lemma length_axis_y : length (mkVector3 0 1 0) = 1.
Proof.
  unfold length; simpl. replace (0 * 0 + 1 * 1 + 0 * 0) with 1 by ring.
  apply sqrt_1.
Qed.


Lemma length_getOrbitNormal (elements : OrbitalElements) :
  length (getOrbitNormal elements) = 1.
Proof. rewrite getOrbitNormal_value. apply length_normal. Qed.


End Arcs.



Section Turns.





End Turns.





Section Handedness.


End Handedness.



(** ** The filled orbit plane *)

Section Surface.

Lemma nth_error_flat_map3 {A B : Type} (f0 f1 f2 : A -> B) (l : list A) (m : nat) :
  nth_error (flat_map (fun t => [f0 t; f1 t; f2 t]) l) (3 * m)
  = option_map f0 (nth_error l m)
  /\ nth_error (flat_map (fun t => [f0 t; f1 t; f2 t]) l) (3 * m + 1)
     = option_map f1 (nth_error l m)
  /\ nth_error (flat_map (fun t => [f0 t; f1 t; f2 t]) l) (3 * m + 2)
     = option_map f2 (nth_error l m).
Proof.
  revert m. induction l as [| t l IH]; intros m.
  - simpl. destruct m; simpl; repeat split;
      match goal with |- nth_error [] ?n = _ => now destruct n end.
  - destruct m as [| m].
    + simpl. repeat split.
    + replace (3 * S m)%nat with (S (S (S (3 * m)))) by lia.
      replace (S (S (S (3 * m))) + 1)%nat with (S (S (S (3 * m + 1)))) by lia.
      replace (S (S (S (3 * m))) + 2)%nat with (S (S (S (3 * m + 2)))) by lia.
      simpl. apply IH.
Qed.

Lemma vertices_flat (points : list Vector3) :
  OrbitalPlaneSurface.vertices points
  = [0; 0; 0] ++ flat_map (fun p => [THREE.x p; THREE.y p; THREE.z p]) points.
Proof.
  unfold OrbitalPlaneSurface.vertices. generalize [0; 0; 0].
  induction points as [| p ps IH]; intros acc; simpl.
  - now rewrite app_nil_r.
  - rewrite IH, <- app_assoc. reflexivity.
Qed.

Lemma indexLoop_spec (len k : nat) (acc : list nat) :
  OrbitalPlaneSurface.indexLoop len k acc
  = acc ++ flat_map (fun t => [0; t; t + 1]%nat) (seq k (len - k)).
Proof.
  funelim (OrbitalPlaneSurface.indexLoop len k acc).
  - rewrite H, <- app_assoc. f_equal.
    match goal with
    | Hlt : (?j < len)%nat |- _ =>
        replace (len - j)%nat with (S (len - S j)) by lia
    end.
    reflexivity.
  - match goal with
    | |- context [seq ?j (len - ?j)] => replace (len - j)%nat with 0%nat by lia
    end.
    simpl. now rewrite app_nil_r.
Qed.

Lemma indices_flat (points : list Vector3) :
  OrbitalPlaneSurface.indices points
  = flat_map (fun t => [0; t; t + 1]%nat) (seq 1 (List.length points - 1)).
Proof. unfold OrbitalPlaneSurface.indices. now rewrite indexLoop_spec. Qed.

Lemma length_flat_map3 {A B : Type} (f0 f1 f2 : A -> B) (l : list A) :
  List.length (flat_map (fun t => [f0 t; f1 t; f2 t]) l) = (3 * List.length l)%nat.
Proof. induction l as [| t l IH]; simpl; [reflexivity | rewrite IH; lia]. Qed.

Lemma vertexAt_center (points : list Vector3) :
  OrbitalPlaneSurface.vertexAt (OrbitalPlaneSurface.vertices points) 0
  = Some (mkVector3 0 0 0).
Proof. rewrite vertices_flat. reflexivity. Qed.

Lemma vertexAt_point (points : list Vector3) (m : nat) :
  OrbitalPlaneSurface.vertexAt (OrbitalPlaneSurface.vertices points) (S m)
  = nth_error points m.
Proof.
  rewrite vertices_flat. unfold OrbitalPlaneSurface.vertexAt.
  replace (3 * S m)%nat with (S (S (S (3 * m)))) by lia.
  replace (S (S (S (3 * m))) + 1)%nat with (S (S (S (3 * m + 1)))) by lia.
  replace (S (S (S (3 * m))) + 2)%nat with (S (S (S (3 * m + 2)))) by lia.
  cbn [app nth_error].
  destruct (nth_error_flat_map3 THREE.x THREE.y THREE.z points m) as (-> & -> & ->).
  destruct (nth_error points m) as [[vx vy vz] |]; reflexivity.
Qed.

Lemma indices_bound (points : list Vector3) (idx : nat) :
  In idx (OrbitalPlaneSurface.indices points) ->
  (idx <= List.length points)%nat /\ (2 <= List.length points)%nat.
Proof.
  rewrite indices_flat. intros Hin. apply in_flat_map in Hin.
  destruct Hin as [t [Ht Hidx]]. apply in_seq in Ht.
  simpl in Hidx. destruct Hidx as [<- | [<- | [<- | []]]]; lia.
Qed.

Lemma indices_triangle (points : list Vector3) (k : nat) :
  (k + 1 < List.length points)%nat ->
  nth_error (OrbitalPlaneSurface.indices points) (3 * k) = Some 0%nat
  /\ nth_error (OrbitalPlaneSurface.indices points) (3 * k + 1) = Some (k + 1)%nat
  /\ nth_error (OrbitalPlaneSurface.indices points) (3 * k + 2) = Some (k + 2)%nat.
Proof.
  intros Hk. rewrite indices_flat.
  destruct (nth_error_flat_map3 (fun _ : nat => 0%nat) (fun t => t) (fun t => (t + 1)%nat)
              (seq 1 (List.length points - 1)) k) as (-> & -> & ->).
  rewrite (nth_error_nth' _ 0%nat) by (rewrite length_seq; lia).
  rewrite seq_nth by lia. simpl.
  repeat split; f_equal; lia.
Qed.

End Surface.

(** X17. The fan that fills the orbit plane.  For any list of path points
    the vertex buffer holds the centre [(0, 0, 0)] at index 0 and point [m]
    at index [m + 1]; the index buffer holds one triangle per pair of
    consecutive points, triangle [k] joining the centre, point [k] and point
    [k + 1]; an empty or one-point list gives no triangle; and every index
    names a vertex of the buffer.  For the path of 128 segments this makes
    130 vertices and 128 triangles. *)
Theorem X17_orbit_plane_fan :
  (forall points,
      List.length (OrbitalPlaneSurface.vertices points)
      = (3 * (List.length points + 1))%nat
      /\ List.length (OrbitalPlaneSurface.indices points)
         = (3 * (List.length points - 1))%nat
      /\ OrbitalPlaneSurface.vertexAt (OrbitalPlaneSurface.vertices points) 0
         = Some (mkVector3 0 0 0)
      /\ (forall m,
             OrbitalPlaneSurface.vertexAt (OrbitalPlaneSurface.vertices points) (S m)
             = nth_error points m)
      /\ (forall k,
             (k + 1 < List.length points)%nat ->
             nth_error (OrbitalPlaneSurface.indices points) (3 * k) = Some 0%nat
             /\ nth_error (OrbitalPlaneSurface.indices points) (3 * k + 1)
                = Some (k + 1)%nat
             /\ nth_error (OrbitalPlaneSurface.indices points) (3 * k + 2)
                = Some (k + 2)%nat)
      /\ (forall idx,
             In idx (OrbitalPlaneSurface.indices points) ->
             OrbitalPlaneSurface.vertexAt (OrbitalPlaneSurface.vertices points) idx
             <> None))
  /\ (forall elements,
         List.length (fst (OrbitalPlaneSurface.geometry elements)) = (3 * 130)%nat
         /\ List.length (snd (OrbitalPlaneSurface.geometry elements)) = (3 * 128)%nat).
Proof.
  split.
  - intros points. split; [| split; [| split; [| split; [| split]]]].
    + rewrite vertices_flat, length_app, length_flat_map3. simpl. lia.
    + now rewrite indices_flat, length_flat_map3, length_seq.
    + apply vertexAt_center.
    + apply vertexAt_point.
    + apply indices_triangle.
    + intros idx Hin. destruct (indices_bound points idx Hin) as [Hle H2].
      destruct idx as [| m].
      * rewrite vertexAt_center. discriminate.
      * rewrite vertexAt_point. apply nth_error_Some. lia.
  - intros elements. unfold OrbitalPlaneSurface.geometry. simpl fst; simpl snd.
    rewrite vertices_flat, length_app, indices_flat, !length_flat_map3, length_seq.
    rewrite generateOrbitPath_length by lia. simpl. lia.
Qed.

Lemma X17_witness :
  OrbitalPlaneSurface.vertexAt
    (OrbitalPlaneSurface.vertices [mkVector3 1 0 0; mkVector3 0 0 1]) 2
  <> None.
Proof.
  apply (proj1 X17_orbit_plane_fan [mkVector3 1 0 0; mkVector3 0 0 1]).
  rewrite indices_flat. simpl. right. right. left. reflexivity.
Defined.

(** ** The explanation service *)

(** X18. [generateOrbitalExplanation] always produces a text to show, never
    the empty string: the reply of the service when the API key is present
    and the reply has a non-empty text; the "no explanation" text when the
    reply has no text or an empty one; the "cannot fetch" text when the key is
    missing or empty or the call is rejected. *)
Theorem X18_explanation_is_never_empty (apiKey : option string)
        (outcome : GeminiService.ApiOutcome) :
  GeminiService.generateOrbitalExplanation apiKey outcome <> EmptyString
  /\ (forall s,
         GeminiService.truthy apiKey = true ->
         outcome = GeminiService.Responded (Some s) -> s <> EmptyString ->
         GeminiService.generateOrbitalExplanation apiKey outcome = s)
  /\ (GeminiService.truthy apiKey = true ->
      outcome = GeminiService.Responded None
      \/ outcome = GeminiService.Responded (Some EmptyString) ->
      GeminiService.generateOrbitalExplanation apiKey outcome = "暂无解释。"%string)
  /\ (GeminiService.truthy apiKey = false \/ outcome = GeminiService.Rejected ->
      GeminiService.generateOrbitalExplanation apiKey outcome
      = "暂时无法获取AI解释。"%string).
Proof.
  unfold GeminiService.generateOrbitalExplanation, GeminiService.tryBody,
    GeminiService.getAIClient.
  split; [| split; [| split]].
  - destruct (GeminiService.truthy apiKey); [| discriminate].
    destruct outcome as [| [[| c s] |]]; simpl; discriminate.
  - intros s Hk -> Hs. rewrite Hk. destruct s; [now elim Hs | reflexivity].
  - intros Hk [-> | ->]; rewrite Hk; reflexivity.
  - intros [Hk | ->].
    + rewrite Hk. reflexivity.
    + destruct (GeminiService.truthy apiKey); reflexivity.
Qed.

Lemma X18_witness :
  GeminiService.generateOrbitalExplanation (Some "k"%string)
    (GeminiService.Responded (Some "ok"%string)) = "ok"%string.
Proof.
  apply (proj1 (proj2 (X18_explanation_is_never_empty (Some "k"%string)
                         (GeminiService.Responded (Some "ok"%string))))).
  - reflexivity.
  - reflexivity.
  - discriminate.
Defined.

(** ** Dragging the help panel *)

Section Drag.

Lemma moves_idle (path : list (R * R)) (s : HelpModal.State) :
  HelpModal.isDragging s = false -> HelpModal.moves path s = s.
Proof.
  unfold HelpModal.moves. induction path as [| c path IH]; intros Hd; simpl.
  - reflexivity.
  - unfold HelpModal.handlePointerMove at 2. rewrite Hd. now apply IH.
Qed.

Lemma moves_dragging (path : list (R * R)) (s : HelpModal.State) :
  HelpModal.isDragging s = true ->
  HelpModal.isDragging (HelpModal.moves path s) = true
  /\ HelpModal.dragOffset (HelpModal.moves path s) = HelpModal.dragOffset s.
Proof.
  unfold HelpModal.moves. revert s.
  induction path as [| c path IH]; intros s Hd; simpl.
  - now split.
  - assert (Hstep : HelpModal.isDragging
                      (HelpModal.handlePointerMove (fst c) (snd c) s) = true
                    /\ HelpModal.dragOffset
                         (HelpModal.handlePointerMove (fst c) (snd c) s)
                       = HelpModal.dragOffset s).
    { unfold HelpModal.handlePointerMove. rewrite Hd. now split. }
    destruct Hstep as [H1 H2]. destruct (IH _ H1) as [H3 H4].
    split; [exact H3 | now rewrite H4].
Qed.

Lemma moves_last (path : list (R * R)) (c : R * R) (s : HelpModal.State) :
  HelpModal.moves (path ++ [c]) s
  = HelpModal.handlePointerMove (fst c) (snd c) (HelpModal.moves path s).
Proof. unfold HelpModal.moves. now rewrite fold_left_app. Qed.

End Drag.

(** X19. Dragging the help panel.  Pressing the pointer does not move the
    panel; after a press at [(x0, y0)] and any run of moves ending at
    [(x1, y1)] the panel has moved by exactly [(x1 - x0, y1 - y0)] from where
    it was, whatever the moves in between; and once the pointer is released
    no move changes its position. *)
Theorem X19_help_panel_follows_the_pointer (s : HelpModal.State)
        (x0 y0 x1 y1 : R) (path : list (R * R)) :
  HelpModal.position (HelpModal.handlePointerDown x0 y0 s) = HelpModal.position s
  /\ HelpModal.position
       (HelpModal.moves (path ++ [(x1, y1)]) (HelpModal.handlePointerDown x0 y0 s))
     = HelpModal.mkPoint (HelpModal.x (HelpModal.position s) + (x1 - x0))
                         (HelpModal.y (HelpModal.position s) + (y1 - y0))
  /\ HelpModal.position (HelpModal.moves path (HelpModal.handlePointerUp s))
     = HelpModal.position s.
Proof.
  split; [reflexivity | split].
  - rewrite moves_last.
    destruct (moves_dragging path (HelpModal.handlePointerDown x0 y0 s) eq_refl)
      as [Hd Ho].
    unfold HelpModal.handlePointerMove. rewrite Hd, Ho. simpl.
    f_equal; ring.
  - now rewrite moves_idle.
Qed.

(** ** The guards of the arcs *)

Section ArcGuards.

Lemma normalize_cases (v : Vector3) :
  length (normalize v) = 1 \/ normalize v = mkVector3 0 0 0.
Proof.
  destruct (Req_dec_T (length v) 0) as [H0 | Hn].
  - right. rewrite normalize_scale, H0. unfold orOne.
    destruct (Req_dec_T 0 0) as [_ | Hc]; [| now elim Hc].
    unfold length in H0. apply sqrt_eq_0 in H0; [| destruct v; simpl; nra].
    destruct v as [vx vy vz]; simpl in H0.
    assert (vx = 0 /\ vy = 0 /\ vz = 0) as (-> & -> & ->) by (repeat split; nra).
    unfold multiplyScalar; simpl. f_equal; ring.
  - left. now apply length_normalize.
Qed.

Lemma lagrange (u v : Vector3) :
  lengthSq (crossVectors u v) = lengthSq u * lengthSq v - dot u v * dot u v.
Proof. unfold lengthSq, crossVectors, dot; simpl. ring. Qed.

Lemma lengthSq_cross_zero_l (v : Vector3) :
  lengthSq (crossVectors (mkVector3 0 0 0) v) = 0.
Proof. unfold lengthSq, crossVectors; simpl. ring. Qed.

Lemma lengthSq_cross_zero_r (u : Vector3) :
  lengthSq (crossVectors u (mkVector3 0 0 0)) = 0.
Proof. unfold lengthSq, crossVectors; simpl. ring. Qed.

(** Between unit vectors, an angle below 0.01 comes with a cross product of
    squared length below 0.0001. *)
Lemma small_angle_small_cross (u v : Vector3) :
  length u = 1 -> length v = 1 ->
  Rabs (angleTo u v) < 0.01 -> lengthSq (crossVectors u v) < 0.0001.
Proof.
  intros Hu Hv Hang.
  pose proof (lagrange u v) as HL.
  rewrite (lengthSq_unit u Hu), (lengthSq_unit v Hv) in HL.
  assert (Hpos : 0 <= lengthSq (crossVectors u v))
    by (unfold lengthSq; nra).
  set (d := dot u v) in *.
  assert (Hd : -1 <= d <= 1) by (split; nra).
  unfold angleTo in Hang.
  rewrite (lengthSq_unit u Hu), (lengthSq_unit v Hv), Rmult_1_r, sqrt_1 in Hang.
  destruct (Req_dec_T 1 0) as [H | _]; [lra|].
  fold d in Hang. unfold clamp in Hang.
  replace (d / 1) with d in Hang by field.
  rewrite Rmin_right, Rmax_right in Hang by lra.
  pose proof (acos_bound d) as [Hlo Hhi].
  rewrite Rabs_pos_eq in Hang by exact Hlo.
  pose proof (sin_acos d Hd) as Hsin.
  replace (1 - d²) with (lengthSq (crossVectors u v)) in Hsin
    by (rewrite HL; unfold Rsqr; ring).
  assert (Hs : sqrt (lengthSq (crossVectors u v)) < 0.01).
  { rewrite <- Hsin. destruct (Req_dec_T (acos d) 0) as [Hz | Hnz].
    - rewrite Hz, sin_0. lra.
    - pose proof (sin_lt_x (acos d)). lra. }
  pose proof (sqrt_pos (lengthSq (crossVectors u v))) as Hsp.
  rewrite <- (sqrt_sqrt _ Hpos). nra.
Qed.

Lemma arcHidden_iff (startVec endVec : Vector3) :
  VisualGuides.arcHidden startVec endVec = true
  <-> lengthSq (crossVectors (normalize startVec) (normalize endVec)) < 0.0001.
Proof.
  unfold VisualGuides.arcHidden.
  destruct (Rlt_dec (lengthSq (crossVectors (normalize startVec) (normalize endVec)))
                    0.0001) as [Hc | Hc]; [tauto|].
  destruct (Rlt_dec (Rabs (angleTo (normalize startVec) (normalize endVec))) 0.01)
    as [Ha | Ha]; [| split; [discriminate | contradiction]].
  exfalso. apply Hc.
  destruct (normalize_cases startVec) as [Hu | ->];
    [| rewrite lengthSq_cross_zero_l; lra].
  destruct (normalize_cases endVec) as [Hv | ->];
    [| rewrite lengthSq_cross_zero_r; lra].
  now apply small_angle_small_cross.
Qed.

End ArcGuards.

(** X20. Of the two guards of [AngleArc] only the first ever decides: an
    arc is left out exactly when the cross product of the two normalized
    vectors has a squared length below 0.0001 (the vectors are within about
    0.57 degrees of parallel or opposite, or one of them is zero); whenever
    the angle is below 0.01 the first guard has already fired.  For the arc
    of the inclination this means exactly [sin i * sin i < 0.0001]. *)
Theorem X20_arc_guards :
  (forall startVec endVec,
      VisualGuides.arcHidden startVec endVec = true
      <-> lengthSq (crossVectors (normalize startVec) (normalize endVec)) < 0.0001)
  /\ (forall elements,
         VisualGuides.arcHidden (mkVector3 0 1 0) (VisualGuides.orbitNormal elements)
         = true
         <-> sin (i elements) * sin (i elements) < 0.0001).
Proof.
  split; [exact arcHidden_iff|].
  intros elements. rewrite arcHidden_iff.
  rewrite (normalize_unit _ length_axis_y).
  unfold VisualGuides.orbitNormal.
  rewrite normalize_scaled_unit by (try apply length_getOrbitNormal; lra).
  rewrite getOrbitNormal_value.
  replace (lengthSq (crossVectors (mkVector3 0 1 0) (perifocalToThree 0 0 1 elements)))
    with (sin (i elements) * sin (i elements)); [tauto|].
  pose proof (sin_cos_sq (raan elements)) as HO.
  cbv [lengthSq crossVectors perifocalToThree THREE.x THREE.y THREE.z].
  set (cO := cos (raan elements)) in *. set (sO := sin (raan elements)) in *.
  nsatz.
Qed.
